(** * Terminal Tamagotchi: the turn engine of [tamagotchi.py]

    The pet is a Python dict with nine fixed keys which every engine
    function mutates in place.  It is embedded as a record, and the
    functions as computations in a state monad over that record, so that
    "what the function leaves alone" is a theorem about the final state
    and not a matter of how the function was typed.

    Python integers are unbounded, hence [Z]. *)

From Stdlib Require Import ZArith Ascii String List Bool Lia.
From ExtLib Require Import Structures.Monad Structures.MonadState.
From ExtLib Require Import Data.Monads.StateMonad.
Import ListNotations.
Import MonadNotation.
Local Open Scope monad_scope.
Local Open Scope Z_scope.

(** ** The pet dict *)

Record pet : Type := Pet {
  name : string;
  hunger : Z;
  happiness : Z;
  energy : Z;
  health : Z;
  turn : Z;
  alive : bool;
  sleeping : bool;
  sleep_turns_remaining : Z
}.

(** Keys of the dict, split by the type of the value they hold. *)
Inductive int_key : Type :=
| k_hunger | k_happiness | k_energy | k_health | k_turn
| k_sleep_turns_remaining.

Inductive bool_key : Type := k_alive | k_sleeping.

Definition int_item (k : int_key) (p : pet) : Z :=
  match k with
  | k_hunger => hunger p
  | k_happiness => happiness p
  | k_energy => energy p
  | k_health => health p
  | k_turn => turn p
  | k_sleep_turns_remaining => sleep_turns_remaining p
  end.

Definition bool_item (k : bool_key) (p : pet) : bool :=
  match k with
  | k_alive => alive p
  | k_sleeping => sleeping p
  end.

Definition with_int (k : int_key) (v : Z) (p : pet) : pet :=
  match k with
  | k_hunger =>
      Pet (name p) v (happiness p) (energy p) (health p) (turn p)
          (alive p) (sleeping p) (sleep_turns_remaining p)
  | k_happiness =>
      Pet (name p) (hunger p) v (energy p) (health p) (turn p)
          (alive p) (sleeping p) (sleep_turns_remaining p)
  | k_energy =>
      Pet (name p) (hunger p) (happiness p) v (health p) (turn p)
          (alive p) (sleeping p) (sleep_turns_remaining p)
  | k_health =>
      Pet (name p) (hunger p) (happiness p) (energy p) v (turn p)
          (alive p) (sleeping p) (sleep_turns_remaining p)
  | k_turn =>
      Pet (name p) (hunger p) (happiness p) (energy p) (health p) v
          (alive p) (sleeping p) (sleep_turns_remaining p)
  | k_sleep_turns_remaining =>
      Pet (name p) (hunger p) (happiness p) (energy p) (health p) (turn p)
          (alive p) (sleeping p) v
  end.

Definition with_bool (k : bool_key) (b : bool) (p : pet) : pet :=
  match k with
  | k_alive =>
      Pet (name p) (hunger p) (happiness p) (energy p) (health p) (turn p)
          b (sleeping p) (sleep_turns_remaining p)
  | k_sleeping =>
      Pet (name p) (hunger p) (happiness p) (energy p) (health p) (turn p)
          (alive p) b (sleep_turns_remaining p)
  end.

(** ** Procedures over the pet

    [proc A] is a Python function that receives the pet by reference and
    returns an [A]. *)

Definition proc : Type -> Type := state pet.

(** [pet[k]] read. *)
Definition getitem (k : int_key) : proc Z :=
  p <- get ;; ret (int_item k p).

Definition getflag (k : bool_key) : proc bool :=
  p <- get ;; ret (bool_item k p).

(** [pet[k] = v]. *)
Definition setitem (k : int_key) (v : Z) : proc unit :=
  p <- get ;; put (with_int k v p).

Definition setflag (k : bool_key) (b : bool) : proc unit :=
  p <- get ;; put (with_bool k b p).

(** [for x in xs: body(x)]. *)
Fixpoint for_each {A : Type} (xs : list A) (body : A -> proc unit)
  : proc unit :=
  match xs with
  | [] => ret tt
  | x :: rest => body x ;; for_each rest body
  end.

(** [if c: body] with no [else]. *)
Definition when (c : bool) (body : proc unit) : proc unit :=
  if c then body else ret tt.

(** ** Constants *)

(** The dict [DECAY], in its insertion order, which is the order
    [DECAY.items()] iterates in. *)
Definition DECAY : list (int_key * Z) :=
  [(k_hunger, 5); (k_energy, 4); (k_happiness, 2)].

(** ** Utilities *)

Definition clamp (value lo hi : Z) : Z := Z.max lo (Z.min hi value).

(** ** Pet factory *)

Definition make_pet (nm : string) : pet :=
  {| name := nm;
     hunger := 80;
     happiness := 80;
     energy := 80;
     health := 100;
     turn := 1;
     alive := true;
     sleeping := false;
     sleep_turns_remaining := 0 |}.

(** ** Stat logic *)

Definition decay_stats : proc unit :=
  for_each DECAY (fun '(stat, amount) =>
    v <- getitem stat ;;
    setitem stat (clamp (v - amount) 0 100)).

Definition check_health_drain : proc unit :=
  h <- getitem k_hunger ;;
  when (h =? 0)
    (hp <- getitem k_health ;;
     setitem k_health (clamp (hp - 10) 0 100)).

Definition check_death : proc unit :=
  hp <- getitem k_health ;;
  when (hp <=? 0) (setflag k_alive false).

(** ** Actions *)

Definition apply_feed : proc unit :=
  h <- getitem k_hunger ;;
  setitem k_hunger (clamp (h + 30) 0 100).

Definition apply_play : proc unit :=
  hp <- getitem k_happiness ;;
  setitem k_happiness (clamp (hp + 20) 0 100) ;;
  e <- getitem k_energy ;;
  setitem k_energy (clamp (e - 15) 0 100).

Definition start_sleep : proc unit :=
  setflag k_sleeping true ;;
  setitem k_sleep_turns_remaining 3.

Definition process_sleep_turn : proc unit :=
  e <- getitem k_energy ;;
  setitem k_energy (clamp (e + 25) 0 100) ;;
  n <- getitem k_sleep_turns_remaining ;;
  setitem k_sleep_turns_remaining (n - 1) ;;
  n' <- getitem k_sleep_turns_remaining ;;
  when (n' <=? 0)
    (setflag k_sleeping false ;;
     setitem k_sleep_turns_remaining 0).

(** ** Mood *)

Definition get_mood : proc string :=
  s <- getflag k_sleeping ;;
  if s then ret "sleeping"%string
  else
    h <- getitem k_hunger ;;
    hp <- getitem k_happiness ;;
    e <- getitem k_energy ;;
    if (h >=? 50) && (hp >=? 50) && (e >=? 30) then ret "happy"%string
    else if (h <? 25) || (hp <? 25) || (e <? 20) then ret "sad"%string
    else ret "neutral"%string.

(** ** Save *)

(** What the file system does with the [with open(SAVE_PATH, "w")] block
    of [save_game]: the dump is written; or [open] raises an [OSError]
    (no such directory, no permission) and the file is not touched; or
    the file is opened, and so emptied, and the dump raises an [OSError]
    on the way (disk full). *)
Inductive write_result : Type :=
| Written
| OpenRaises
| DumpRaises.

(** [save_game] serialises the dict it is given and writes it out; it
    assigns to no key and catches nothing.  It returns the dict that
    reached the file, or nothing when the [OSError] leaves it. *)
Definition save_game (answer : write_result) : proc (option pet) :=
  p <- get ;;
  match answer with
  | Written => ret (Some p)
  | OpenRaises => ret None
  | DumpRaises => ret None
  end.

(** ** Main game loop *)

(** How one pass through the body of [while pet["alive"]] ends. *)
Inductive outcome : Type :=
| TurnResolved
| SavedOnly (snapshot : pet)
| Quit (snapshot : pet)
| Raised.

(** [if pet["alive"]: pet["turn"] += 1]. *)
Definition bump_turn : proc unit :=
  a <- getflag k_alive ;;
  when a (t <- getitem k_turn ;; setitem k_turn (t + 1)).

(** One pass through the loop body.  [action] is what [prompt_action]
    returns; it is asked for only when the pet is awake.  [answer] is
    what the file system does if this pass calls [save_game]; an
    [OSError] out of [save_game] is caught nowhere and leaves
    [run_game].  Rendering, screen clearing and the pauses do not touch
    the pet and are left out. *)
Definition run_game_iteration (answer : write_result) (action : string)
  : proc outcome :=
  s <- getflag k_sleeping ;;
  if s then
    process_sleep_turn ;;
    decay_stats ;;
    check_health_drain ;;
    check_death ;;
    bump_turn ;;
    ret TurnResolved
  else
    let finish : proc outcome :=
      decay_stats ;;
      check_health_drain ;;
      check_death ;;
      bump_turn ;;
      ret TurnResolved in
    if (action =? "f")%string then apply_feed ;; finish
    else if (action =? "p")%string then apply_play ;; finish
    else if (action =? "s")%string then start_sleep ;; finish
    else if (action =? "c")%string then finish
    else if (action =? "save")%string then
      saved <- save_game answer ;;
      match saved with
      | Some snap => ret (SavedOnly snap)
      | None => ret Raised
      end
    else if (action =? "q")%string then
      saved <- save_game answer ;;
      match saved with
      | Some snap => ret (Quit snap)
      | None => ret Raised
      end
    else finish.

(** ** Predicates used in the statements *)

Definition in_range (v : Z) : Prop := 0 <= v <= 100.

Definition stats_in_range (p : pet) : Prop :=
  in_range (hunger p) /\ in_range (happiness p) /\
  in_range (energy p) /\ in_range (health p).

(** The seven operations that mutate the pet. *)
Definition core_ops : list (proc unit) :=
  [decay_stats; check_health_drain; check_death; apply_feed; apply_play;
   start_sleep; process_sleep_turn].

(** [n] calls of [c] in a row. *)
Fixpoint repeat_proc (n : nat) (c : proc unit) : proc unit :=
  match n with
  | O => ret tt
  | S k => c ;; repeat_proc k c
  end.

(** The mood rules as the specification words them: four rules, each
    one applying only when the ones before it did not. *)
Definition happy_cond (p : pet) : Prop :=
  hunger p >= 50 /\ happiness p >= 50 /\ energy p >= 30.

Definition sad_cond (p : pet) : Prop :=
  hunger p < 25 \/ happiness p < 25 \/ energy p < 20.

Inductive getMood_rules (p : pet) : string -> Prop :=
| rule_sleeping :
    sleeping p = true -> getMood_rules p "sleeping"
| rule_happy :
    sleeping p = false -> happy_cond p -> getMood_rules p "happy"
| rule_sad :
    sleeping p = false -> ~ happy_cond p -> sad_cond p ->
    getMood_rules p "sad"
| rule_neutral :
    sleeping p = false -> ~ happy_cond p -> ~ sad_cond p ->
    getMood_rules p "neutral".

(** ** Faces *)

(** The dict [FACES]. *)
Definition FACES : list (string * string) :=
  [("happy", "(^‿^)"); ("neutral", "(-_-)"); ("sad", "(;_;)");
   ("sleeping", "(-.-)zzZ"); ("dead", "(x_x)")]%string.

(** [d.get(key)] on a dict kept as an association list. *)
Fixpoint dict_get (d : list (string * string)) (key : string)
  : option string :=
  match d with
  | [] => None
  | (k, v) :: rest => if (k =? key)%string then Some v else dict_get rest key
  end.

(** The face [render_pet] prints: [FACES.get(mood, FACES["neutral"])]. *)
Definition render_pet_face (p : pet) : string :=
  let mood := evalState get_mood p in
  match dict_get FACES mood with
  | Some face => face
  | None => "(-_-)"%string
  end.

(** ** Input *)

(** A Python [str] is a sequence of Unicode code points. *)
Definition pystr : Type := list Z.

(** [ord(c)] of a one-byte character. *)
Definition ord (c : ascii) : Z := Z.of_N (N_of_ascii c).

(** [chr(n)] as a one-character string, for a code point below 256. *)
Definition chr (n : Z) : string :=
  String (ascii_of_N (Z.to_N n)) EmptyString.

(** The [str] with the characters of an ASCII literal. *)
Definition code_points (text : string) : pystr :=
  List.map ord (list_ascii_of_string text).

(** [c.isspace()] for one character: the code points Python counts as
    whitespace (tab to carriage return, the four separators 0x1C-0x1F,
    space, NEL, no-break space and the Unicode spaces beyond). *)
Definition isspace (c : Z) : bool :=
  ((9 <=? c) && (c <=? 13)) || ((28 <=? c) && (c <=? 32)) ||
  (c =? 133) || (c =? 160) || (c =? 5760) ||
  ((8192 <=? c) && (c <=? 8202)) || (c =? 8232) || (c =? 8233) ||
  (c =? 8239) || (c =? 8287) || (c =? 12288).

(** [s.lstrip()], [s.rstrip()] and [s.strip()]. *)
Fixpoint lstrip (s : pystr) : pystr :=
  match s with
  | [] => []
  | c :: rest => if isspace c then lstrip rest else s
  end.

Definition rstrip (s : pystr) : pystr := rev (lstrip (rev s)).

Definition strip (s : pystr) : pystr := rstrip (lstrip s).

(** What one call of [input("> ")] comes to: the line typed, or one of
    the two exceptions [prompt_action] catches. *)
Inductive console_event : Type :=
| Input (line : pystr)
| EOFError
| KeyboardInterrupt.

(** The line whose characters are those of an ASCII literal. *)
Definition Entered (text : string) : console_event :=
  Input (code_points text).

(** The set [valid] of [prompt_action]. *)
Definition valid : list Z :=
  List.map ord ["f"; "p"; "s"; "c"; "S"; "q"]%char.

(** [ch in valid]. *)
Definition in_valid (ch : Z) : bool :=
  existsb (Z.eqb ch) valid.

(** [prompt_action] reading the console events in order; it returns the
    action and the events it has not read.  A console with nothing left
    is at end of file, where [input] raises [EOFError]. *)
Fixpoint prompt_action (events : list console_event)
  : string * list console_event :=
  match events with
  | [] => ("q"%string, [])
  | EOFError :: rest => ("q"%string, rest)
  | KeyboardInterrupt :: rest => ("q"%string, rest)
  | Input line :: rest =>
      match strip line with
      | [] => prompt_action rest
      | ch :: _ =>
          if ch =? ord "S" then ("save"%string, rest)
          else if in_valid ch then (chr ch, rest)
          else prompt_action rest
      end
  end.

(** ** The whole loop *)

(** What the file at [SAVE_PATH] holds: the dump of a dict, or what is
    left of a dump that did not get through. *)
Inductive saved_file : Type :=
| Snapshot (p : pet)
| Garbled.

(** What the loop works on: the pet, the console events still to come,
    and the file at [SAVE_PATH], if it exists. *)
Record world : Type := World {
  the_pet : pet;
  console : list console_event;
  save_file : option saved_file
}.

(** The file after a write that raised. *)
Definition after_failed_write (answer : write_result)
           (file : option saved_file) : option saved_file :=
  match answer with
  | DumpRaises => Some Garbled
  | _ => file
  end.

(** How [run_game] ends: past the loop on the death screen, in
    [sys.exit(0)] on "q", or by the [OSError] of a save that failed. *)
Inductive ending : Type :=
| Died (final : world)
| Exited (final : world)
| Aborted (final : world).

(** [while pet["alive"]: ...] and, once the loop is left, [delete_save()].
    [fuel] bounds the number of passes.  [fs w] is what the file system
    does with a save attempted in the world [w]; no two saves of one run
    are attempted in the same world, the console being shorter each
    time, so that [fs] ranges over everything the file system can do
    during a run.  The closing [input("Press Enter to exit.")] is not
    modelled. *)
Fixpoint main_loop (fs : world -> write_result) (fuel : nat) (w : world)
  : option ending :=
  match fuel with
  | O => None
  | S k =>
      let p := the_pet w in
      if alive p then
        if sleeping p then
          let p' :=
            execState (process_sleep_turn ;; decay_stats ;;
                       check_health_drain ;; check_death ;; bump_turn) p in
          main_loop fs k (World p' (console w) (save_file w))
        else
          let (action, rest) := prompt_action (console w) in
          match runState (run_game_iteration (fs w) action) p with
          | (TurnResolved, p') =>
              main_loop fs k (World p' rest (save_file w))
          | (SavedOnly snap, p') =>
              main_loop fs k (World p' rest (Some (Snapshot snap)))
          | (Quit snap, p') =>
              Some (Exited (World p' rest (Some (Snapshot snap))))
          | (Raised, p') =>
              Some (Aborted (World p' rest
                               (after_failed_write (fs w) (save_file w))))
          end
      else Some (Died (World p (console w) None))
  end.

(** Passes that are enough for [main_loop] to end on [w]. *)
Definition loop_bound (w : world) : nat :=
  S (4 * List.length (console w) +
     (if sleeping (the_pet w)
      then Z.to_nat (Z.max 1 (sleep_turns_remaining (the_pet w)))
      else 0))%nat.

(** ** More predicates *)

(** The shape every pet of a running game has. *)
Definition well_formed (p : pet) : Prop :=
  stats_in_range p /\
  0 <= sleep_turns_remaining p <= 3 /\
  (sleeping p = true <-> 0 < sleep_turns_remaining p) /\
  1 <= turn p.

(** The end of a turn, lines 317-321, in closed form. *)
Definition resolve (p : pet) : pet :=
  let hunger' := clamp (hunger p - 5) 0 100 in
  let health' :=
    if hunger' =? 0 then clamp (health p - 10) 0 100 else health p in
  let alive' := if health' <=? 0 then false else alive p in
  Pet (name p) hunger' (clamp (happiness p - 2) 0 100)
      (clamp (energy p - 4) 0 100) health'
      (if alive' then turn p + 1 else turn p)
      alive' (sleeping p) (sleep_turns_remaining p).

(** A line of nothing but whitespace. *)
Definition blank (line : pystr) : Prop :=
  Forall (fun b => isspace b = true) line.

(** [x] is the first character of [line] that is not whitespace. *)
Definition first_char (line : pystr) (x : Z) : Prop :=
  exists blanks tail,
    line = blanks ++ x :: tail /\ blank blanks /\ isspace x = false.

(** A console event [prompt_action] answers by asking again: a line that
    is blank, or whose first character after the leading whitespace is
    none of f, p, s, c, S, q. *)
Definition unusable (ev : console_event) : Prop :=
  exists line,
    ev = Input line /\
    (blank line \/
     exists x, first_char line x /\
               ~ In x (List.map ord ["f"; "p"; "s"; "c"; "S"; "q"]%char)).

(** What a pass that calls [save_game] comes to: [ok] of the dict when
    the write went through, [Raised] when it did not. *)
Definition save_outcome (answer : write_result) (ok : pet -> outcome)
           (p : pet) : outcome :=
  match answer with
  | Written => ok p
  | OpenRaises => Raised
  | DumpRaises => Raised
  end.

(** The final world of an ending. *)
Definition final_world (e : ending) : world :=
  match e with
  | Died w => w
  | Exited w => w
  | Aborted w => w
  end.

(** * Properties *)

(** ** Running procedures *)

Lemma runState_bind {A B : Type} (c : proc A) (k : A -> proc B) (p : pet) :
  runState (bind c k) p =
  runState (k (fst (runState c p))) (snd (runState c p)).
Proof. simpl. destruct (runState c p); reflexivity. Qed.

Lemma execState_seq {A B : Type} (c : proc A) (d : proc B) (p : pet) :
  execState (c ;; d) p = execState d (execState c p).
Proof. unfold execState. rewrite runState_bind. reflexivity. Qed.

Lemma execState_when (c : bool) (body : proc unit) (p : pet) :
  execState (when c body) p = if c then execState body p else p.
Proof. destruct c; reflexivity. Qed.

(** ** What each operation does to the pet *)

Lemma decay_stats_exec (p : pet) :
  execState decay_stats p =
  Pet (name p) (clamp (hunger p - 5) 0 100) (clamp (happiness p - 2) 0 100)
      (clamp (energy p - 4) 0 100) (health p) (turn p) (alive p)
      (sleeping p) (sleep_turns_remaining p).
Proof. reflexivity. Qed.

Lemma check_health_drain_exec (p : pet) :
  execState check_health_drain p =
  if hunger p =? 0
  then with_int k_health (clamp (health p - 10) 0 100) p
  else p.
Proof.
  unfold check_health_drain, execState. rewrite runState_bind.
  change (fst (runState (getitem k_hunger) p)) with (hunger p).
  change (snd (runState (getitem k_hunger) p)) with p.
  destruct (hunger p =? 0); reflexivity.
Qed.

Lemma check_death_exec (p : pet) :
  execState check_death p =
  if health p <=? 0 then with_bool k_alive false p else p.
Proof.
  unfold check_death, execState. rewrite runState_bind.
  change (fst (runState (getitem k_health) p)) with (health p).
  change (snd (runState (getitem k_health) p)) with p.
  destruct (health p <=? 0); reflexivity.
Qed.

Lemma apply_feed_exec (p : pet) :
  execState apply_feed p = with_int k_hunger (clamp (hunger p + 30) 0 100) p.
Proof. reflexivity. Qed.

Lemma apply_play_exec (p : pet) :
  execState apply_play p =
  Pet (name p) (hunger p) (clamp (happiness p + 20) 0 100)
      (clamp (energy p - 15) 0 100) (health p) (turn p) (alive p)
      (sleeping p) (sleep_turns_remaining p).
Proof. reflexivity. Qed.

Lemma start_sleep_exec (p : pet) :
  execState start_sleep p =
  Pet (name p) (hunger p) (happiness p) (energy p) (health p) (turn p)
      (alive p) true 3.
Proof. reflexivity. Qed.

Lemma process_sleep_turn_exec (p : pet) :
  execState process_sleep_turn p =
  if sleep_turns_remaining p - 1 <=? 0
  then Pet (name p) (hunger p) (happiness p) (clamp (energy p + 25) 0 100)
           (health p) (turn p) (alive p) false 0
  else Pet (name p) (hunger p) (happiness p) (clamp (energy p + 25) 0 100)
           (health p) (turn p) (alive p) (sleeping p)
           (sleep_turns_remaining p - 1).
Proof.
  unfold process_sleep_turn, execState. simpl.
  destruct (sleep_turns_remaining p - 1 <=? 0); reflexivity.
Qed.

Lemma bump_turn_exec (p : pet) :
  execState bump_turn p =
  if alive p then with_int k_turn (turn p + 1) p else p.
Proof.
  destruct p as [nm h hp e hl t a s r].
  unfold bump_turn, when, execState. simpl. destruct a; reflexivity.
Qed.

Lemma get_mood_exec (p : pet) : execState get_mood p = p.
Proof.
  unfold get_mood, execState. simpl. destruct (sleeping p); simpl.
  - reflexivity.
  - destruct ((hunger p >=? 50) && (happiness p >=? 50) && (energy p >=? 30));
      [reflexivity|].
    destruct ((hunger p <? 25) || (happiness p <? 25) || (energy p <? 20));
      reflexivity.
Qed.

Lemma get_mood_eval (p : pet) :
  evalState get_mood p =
  if sleeping p then "sleeping"%string
  else if (hunger p >=? 50) && (happiness p >=? 50) && (energy p >=? 30)
       then "happy"%string
  else if (hunger p <? 25) || (happiness p <? 25) || (energy p <? 20)
       then "sad"%string
  else "neutral"%string.
Proof.
  unfold get_mood, evalState. simpl. destruct (sleeping p); simpl.
  - reflexivity.
  - destruct ((hunger p >=? 50) && (happiness p >=? 50) && (energy p >=? 30));
      [reflexivity|].
    destruct ((hunger p <? 25) || (happiness p <? 25) || (energy p <? 20));
      reflexivity.
Qed.

Lemma clamp_in_range (v : Z) : in_range (clamp v 0 100).
Proof. unfold in_range, clamp. lia. Qed.

Lemma with_int_stats (k : int_key) (v : Z) (p : pet) :
  stats_in_range p -> in_range v -> stats_in_range (with_int k v p).
Proof.
  unfold stats_in_range. intros (Hh & Hhp & He & Hhl) Hv.
  destruct k; simpl; auto.
Qed.

(** ** Bounds *)

(** C1. If hunger, happiness, energy and health all lie in [0,100], then
    after any one of decay_stats, check_health_drain, check_death,
    apply_feed, apply_play, start_sleep and process_sleep_turn they
    still all lie in [0,100]. *)
Theorem core_ops_keep_stats_in_range (op : proc unit) (p : pet) :
  In op core_ops -> stats_in_range p -> stats_in_range (execState op p).
Proof.
  intros Hin Hr. unfold core_ops in Hin. cbn [In] in Hin.
  pose proof Hr as (Hh & Hhp & He & Hhl).
  destruct Hin as [<-|[<-|[<-|[<-|[<-|[<-|[<-|[]]]]]]]].
  - rewrite decay_stats_exec. unfold stats_in_range; simpl.
    auto using clamp_in_range.
  - rewrite check_health_drain_exec. destruct (hunger p =? 0); [|exact Hr].
    apply with_int_stats; auto using clamp_in_range.
  - rewrite check_death_exec. destruct (health p <=? 0); exact Hr.
  - rewrite apply_feed_exec.
    apply with_int_stats; auto using clamp_in_range.
  - rewrite apply_play_exec. unfold stats_in_range; simpl.
    auto using clamp_in_range.
  - rewrite start_sleep_exec. exact Hr.
  - rewrite process_sleep_turn_exec.
    destruct (sleep_turns_remaining p - 1 <=? 0);
      unfold stats_in_range; simpl; auto using clamp_in_range.
Qed.

Lemma core_ops_keep_stats_in_range_witness :
  In apply_play core_ops /\
  stats_in_range (make_pet "Pip") /\
  stats_in_range (execState apply_play (make_pet "Pip")).
Proof.
  assert (Hin : In apply_play core_ops).
  { unfold core_ops. cbn [In]. right. right. right. right. left.
    reflexivity. }
  assert (Hr : stats_in_range (make_pet "Pip")).
  { unfold stats_in_range, in_range. simpl. lia. }
  split; [exact Hin|]. split; [exact Hr|].
  exact (core_ops_keep_stats_in_range apply_play (make_pet "Pip") Hin Hr).
Defined.

(** ** Death *)

(** C4. Once alive is false, none of decay_stats, check_health_drain,
    check_death, apply_feed, apply_play, start_sleep, process_sleep_turn
    and get_mood makes it true again; a pet made by make_pet is alive. *)
Theorem death_is_monotone (p : pet) :
  alive p = false ->
  (forall op, In op core_ops -> alive (execState op p) = false) /\
  alive (execState get_mood p) = false /\
  (forall nm, alive (make_pet nm) = true).
Proof.
  intros Hd. split; [|split].
  - intros op Hin. unfold core_ops in Hin. cbn [In] in Hin.
    destruct Hin as [<-|[<-|[<-|[<-|[<-|[<-|[<-|[]]]]]]]].
    + rewrite decay_stats_exec. exact Hd.
    + rewrite check_health_drain_exec. destruct (hunger p =? 0); exact Hd.
    + rewrite check_death_exec. destruct (health p <=? 0);
        [reflexivity | exact Hd].
    + rewrite apply_feed_exec. exact Hd.
    + rewrite apply_play_exec. exact Hd.
    + rewrite start_sleep_exec. exact Hd.
    + rewrite process_sleep_turn_exec.
      destruct (sleep_turns_remaining p - 1 <=? 0); exact Hd.
  - rewrite get_mood_exec. exact Hd.
  - intros nm. reflexivity.
Qed.

Lemma death_is_monotone_witness :
  let corpse := Pet "Pip" 0 40 40 0 7 false false 0 in
  alive corpse = false /\
  alive (execState apply_feed corpse) = false /\
  alive (execState get_mood corpse) = false.
Proof.
  intros corpse.
  assert (Hd : alive corpse = false) by reflexivity.
  destruct (death_is_monotone corpse Hd) as (Hops & Hmood & _).
  split; [exact Hd|]. split; [|exact Hmood].
  apply Hops. unfold core_ops. cbn [In]. right. right. right. left.
  reflexivity.
Defined.

(** ** Starvation *)

(** C5. check_health_drain subtracts 10 from health and clamps the
    result to [0,100] when hunger is exactly 0, and changes nothing
    else: the new health is max(0, min(100, health - 10)), which lies in
    [0,100] and is health - 10 whenever that is in [0,100].  When hunger
    is not 0, and so whenever hunger > 0, the whole pet is left as it
    was. *)
Theorem check_health_drain_iff_starving (p : pet) :
  (hunger p = 0 ->
   execState check_health_drain p =
   with_int k_health (Z.max 0 (Z.min 100 (health p - 10))) p /\
   0 <= health (execState check_health_drain p) <= 100 /\
   (10 <= health p <= 110 ->
    health (execState check_health_drain p) = health p - 10) /\
   (health p < 10 -> health (execState check_health_drain p) = 0) /\
   (110 < health p -> health (execState check_health_drain p) = 100)) /\
  (hunger p <> 0 -> execState check_health_drain p = p) /\
  (hunger p > 0 -> execState check_health_drain p = p).
Proof.
  rewrite check_health_drain_exec.
  destruct (Z.eqb_spec (hunger p) 0) as [E|N].
  - split; [|split; intros H; lia].
    intros _. unfold clamp. cbn [with_int health].
    repeat split; try reflexivity; lia.
  - split; [intros H; contradiction|]. split; reflexivity.
Qed.

Lemma check_health_drain_iff_starving_witness :
  let starving := Pet "Pip" 0 60 60 4 12 true false 0 in
  let fed := make_pet "Pip" in
  execState check_health_drain starving =
    Pet "Pip" 0 60 60 0 12 true false 0 /\
  0 <= health (execState check_health_drain starving) <= 100 /\
  execState check_health_drain fed = fed.
Proof.
  intros starving fed.
  assert (Hs : hunger starving = 0) by reflexivity.
  destruct (proj1 (check_health_drain_iff_starving starving) Hs)
    as (Heq & Hrange & _).
  split; [exact Heq|]. split; [exact Hrange|].
  apply (proj2 (proj2 (check_health_drain_iff_starving fed))).
  simpl. lia.
Defined.

(** ** Sleep *)

(** C6. From any pet whose energy is 40, start_sleep followed by three
    calls of process_sleep_turn ends with energy 100, sleeping false and
    sleep_turns_remaining 0.  Whether the pet is alive plays no part. *)
Theorem sleep_cycle_from_energy_40 (p : pet) :
  energy p = 40 ->
  let p' := execState (start_sleep ;; repeat_proc 3 process_sleep_turn) p in
  energy p' = 100 /\ sleeping p' = false /\ sleep_turns_remaining p' = 0.
Proof.
  intros He. destruct p as [nm h hp e hl t a s r].
  simpl in He. subst e. repeat split; reflexivity.
Qed.

Lemma sleep_cycle_from_energy_40_witness :
  let tired := Pet "Pip" 70 70 40 100 5 true false 0 in
  let rested :=
    execState (start_sleep ;; repeat_proc 3 process_sleep_turn) tired in
  energy tired = 40 /\
  energy rested = 100 /\ sleeping rested = false /\
  sleep_turns_remaining rested = 0.
Proof.
  intros tired rested.
  assert (He : energy tired = 40) by reflexivity.
  split; [exact He|].
  exact (sleep_cycle_from_energy_40 tired He).
Defined.

(** ** Whole turns *)

(** C3. An awake, living pet with hunger 0 and health 10 that takes the
    "c" (check) action ends the turn with health 0 and alive false, and
    its turn counter is what it was before. *)
Theorem starving_check_turn_kills (answer : write_result) (p : pet) :
  hunger p = 0 -> health p = 10 -> alive p = true -> sleeping p = false ->
  let p' := execState (run_game_iteration answer "c") p in
  health p' = 0 /\ alive p' = false /\ turn p' = turn p.
Proof.
  intros Hh Hhl Ha Hs. destruct p as [nm h hp e hl t a s r].
  simpl in Hh, Hhl, Ha, Hs. subst h hl a s. repeat split; reflexivity.
Qed.

Lemma starving_check_turn_kills_witness :
  let weak := Pet "Pip" 0 50 50 10 9 true false 0 in
  let after := execState (run_game_iteration Written "c") weak in
  (hunger weak = 0 /\ health weak = 10 /\ alive weak = true /\
   sleeping weak = false) /\
  health after = 0 /\ alive after = false /\ turn after = 9.
Proof.
  intros weak after. split.
  - repeat split; reflexivity.
  - apply (starving_check_turn_kills Written weak); reflexivity.
Defined.

(** C2, as the specification states it, fails: the decay that closes the
    turn takes 5 off the hunger the feed had just brought to 100. *)
Lemma fresh_feed_turn_hunger_is_not_100 :
  hunger (execState (run_game_iteration Written "f") (make_pet "Pip")) = 95 /\
  hunger (execState (run_game_iteration Written "f") (make_pet "Pip"))
  <> 100.
Proof. split; [reflexivity | discriminate]. Qed.

(** C2, amended. A fresh pet that takes the "f" (feed) action ends the
    turn with hunger 95, happiness 78, energy 76, health 100, turn 2 and
    alive true. *)
Theorem fresh_feed_turn (answer : write_result) (nm : string) :
  let p' := execState (run_game_iteration answer "f") (make_pet nm) in
  hunger p' = 95 /\ happiness p' = 78 /\ energy p' = 76 /\
  health p' = 100 /\ turn p' = 2 /\ alive p' = true.
Proof. repeat split; reflexivity. Qed.

(** C9. For an awake pet, a pass through the loop with the "save" action
    hands the pet as it stands to save_game and leaves every field as it
    was: no decay, no drain, no death check and no turn increment.  That
    is so whether the write goes through or save_game raises. *)
Theorem save_action_changes_nothing (answer : write_result) (p : pet) :
  sleeping p = false ->
  runState (run_game_iteration answer "save") p =
  (match answer with
   | Written => SavedOnly p
   | OpenRaises => Raised
   | DumpRaises => Raised
   end, p).
Proof.
  intros Hs. destruct p as [nm h hp e hl t a s r].
  simpl in Hs. subst s. destruct answer; reflexivity.
Qed.

Lemma save_action_changes_nothing_witness :
  let awake := Pet "Pip" 3 41 17 60 8 true false 0 in
  sleeping awake = false /\
  runState (run_game_iteration Written "save") awake
  = (SavedOnly awake, awake) /\
  runState (run_game_iteration OpenRaises "save") awake = (Raised, awake).
Proof.
  intros awake.
  assert (Hs : sleeping awake = false) by reflexivity.
  split; [exact Hs|]. split.
  - exact (save_action_changes_nothing Written awake Hs).
  - exact (save_action_changes_nothing OpenRaises awake Hs).
Defined.

(** ** Decay *)

(** C8, as the specification states it, fails: three decays take energy
    from 80 to 68 and happiness from 80 to 74, not to 74 and 72. *)
Lemma three_decays_are_not_65_74_72 :
  let p' := execState (repeat_proc 3 decay_stats) (make_pet "Pip") in
  (hunger p', energy p', happiness p') = (65, 68, 74) /\
  (hunger p', energy p', happiness p') <> (65, 74, 72).
Proof. split; [reflexivity | discriminate]. Qed.

(** C8, amended. Three decay_stats in a row from hunger 80, energy 80
    and happiness 80 give hunger 65, energy 68 and happiness 74. *)
Theorem three_decays_from_80 (p : pet) :
  hunger p = 80 -> energy p = 80 -> happiness p = 80 ->
  let p' := execState (repeat_proc 3 decay_stats) p in
  (hunger p', energy p', happiness p') = (65, 68, 74).
Proof.
  intros Hh He Hhp. destruct p as [nm h hp e hl t a s r].
  simpl in Hh, He, Hhp. subst h e hp. reflexivity.
Qed.

Lemma three_decays_from_80_witness :
  let fresh := make_pet "Pip" in
  let p' := execState (repeat_proc 3 decay_stats) fresh in
  (hunger fresh = 80 /\ energy fresh = 80 /\ happiness fresh = 80) /\
  (hunger p', energy p', happiness p') = (65, 68, 74).
Proof.
  intros fresh p'. split.
  - repeat split; reflexivity.
  - apply (three_decays_from_80 fresh); reflexivity.
Defined.

(** ** Mood *)

Lemma happy_test_iff (p : pet) :
  (hunger p >=? 50) && (happiness p >=? 50) && (energy p >=? 30) = true <->
  happy_cond p.
Proof.
  unfold happy_cond. rewrite !andb_true_iff, !Z.geb_le. lia.
Qed.

Lemma sad_test_iff (p : pet) :
  (hunger p <? 25) || (happiness p <? 25) || (energy p <? 20) = true <->
  sad_cond p.
Proof.
  unfold sad_cond. rewrite !orb_true_iff, !Z.ltb_lt. tauto.
Qed.

Lemma get_mood_obeys_rules (p : pet) : getMood_rules p (evalState get_mood p).
Proof.
  rewrite get_mood_eval.
  destruct (sleeping p) eqn:Hs; [now apply rule_sleeping|].
  destruct ((hunger p >=? 50) && (happiness p >=? 50) && (energy p >=? 30))
    eqn:Hhappy.
  - apply rule_happy; [exact Hs | now apply happy_test_iff].
  - assert (Hnh : ~ happy_cond p).
    { intros C. apply happy_test_iff in C. congruence. }
    destruct ((hunger p <? 25) || (happiness p <? 25) || (energy p <? 20))
      eqn:Hsad.
    + apply rule_sad; [exact Hs | exact Hnh | now apply sad_test_iff].
    + apply rule_neutral; [exact Hs | exact Hnh |].
      intros C. apply sad_test_iff in C. congruence.
Qed.

Lemma getMood_rules_functional (p : pet) (m1 m2 : string) :
  getMood_rules p m1 -> getMood_rules p m2 -> m1 = m2.
Proof.
  intros H1 H2. destruct H1; destruct H2;
    try reflexivity; try congruence; contradiction.
Qed.

(** C7. get_mood returns m exactly when the four rules of the
    specification give m: "sleeping" if sleeping; else "happy" if
    hunger >= 50, happiness >= 50 and energy >= 30; else "sad" if
    hunger < 25 or happiness < 25 or energy < 20; else "neutral".  An
    awake pet with hunger 25, happiness 50 and energy 30 is "neutral". *)
Theorem get_mood_refines_rules (p : pet) :
  (forall m : string, evalState get_mood p = m <-> getMood_rules p m) /\
  (sleeping p = false -> hunger p = 25 -> happiness p = 50 ->
   energy p = 30 -> evalState get_mood p = "neutral"%string).
Proof.
  split.
  - intros m. split.
    + intros <-. apply get_mood_obeys_rules.
    + intros Hr.
      exact (getMood_rules_functional p _ _ (get_mood_obeys_rules p) Hr).
  - intros Hs Hh Hhp He. rewrite get_mood_eval, Hs, Hh, Hhp, He.
    reflexivity.
Qed.

Lemma get_mood_refines_rules_witness :
  let edge := Pet "Pip" 25 50 30 100 4 true false 0 in
  (sleeping edge = false /\ hunger edge = 25 /\ happiness edge = 50 /\
   energy edge = 30) /\
  evalState get_mood edge = "neutral"%string /\
  getMood_rules edge "neutral".
Proof.
  intros edge. split; [repeat split; reflexivity|].
  destruct (get_mood_refines_rules edge) as (Hiff & Hedge).
  assert (Hm : evalState get_mood edge = "neutral"%string).
  { apply Hedge; reflexivity. }
  split; [exact Hm|].
  apply (proj1 (Hiff "neutral"%string)). exact Hm.
Defined.

(** C10. get_mood looks only at sleeping, hunger, happiness and energy:
    two pets equal on these four get the same mood whatever their
    health, alive, turn and name; and the mood is never "dead". *)
Theorem get_mood_reads_four_fields (p q : pet) :
  (sleeping p = sleeping q -> hunger p = hunger q ->
   happiness p = happiness q -> energy p = energy q ->
   evalState get_mood p = evalState get_mood q) /\
  evalState get_mood p <> "dead"%string.
Proof.
  split.
  - intros Hs Hh Hhp He. rewrite !get_mood_eval, Hs, Hh, Hhp, He.
    reflexivity.
  - rewrite get_mood_eval. destruct (sleeping p); [discriminate|].
    destruct ((hunger p >=? 50) && (happiness p >=? 50) && (energy p >=? 30));
      [discriminate|].
    destruct ((hunger p <? 25) || (happiness p <? 25) || (energy p <? 20));
      discriminate.
Qed.

Lemma get_mood_reads_four_fields_witness :
  let living := Pet "Pip" 10 60 60 100 3 true false 0 in
  let corpse := Pet "Rex" 10 60 60 0 41 false false 0 in
  evalState get_mood living = evalState get_mood corpse /\
  evalState get_mood corpse = "sad"%string.
Proof.
  intros living corpse. split.
  - apply (proj1 (get_mood_reads_four_fields living corpse)); reflexivity.
  - reflexivity.
Defined.

(** * Further properties *)

(** ** clamp *)

(** X1. With lo <= hi the result of clamp lies in [lo, hi]; with the
    bounds the wrong way round (hi < lo) it is lo whatever the value. *)
Theorem clamp_bounds (value lo hi : Z) :
  (lo <= hi -> lo <= clamp value lo hi <= hi) /\
  (hi < lo -> clamp value lo hi = lo).
Proof. unfold clamp. lia. Qed.

Lemma clamp_bounds_witness :
  (-3 <= clamp 250 (-3) 7 <= 7) /\ clamp 250 7 (-3) = 7.
Proof.
  split.
  - apply (proj1 (clamp_bounds 250 (-3) 7)). lia.
  - apply (proj2 (clamp_bounds 250 7 (-3))). lia.
Defined.

(** X2. clamp is idempotent and monotone in the value, for any bounds,
    and returns a value already within the bounds unchanged. *)
Theorem clamp_idempotent_monotone (v w lo hi : Z) :
  clamp (clamp v lo hi) lo hi = clamp v lo hi /\
  (v <= w -> clamp v lo hi <= clamp w lo hi) /\
  (lo <= v <= hi -> clamp v lo hi = v).
Proof. unfold clamp. lia. Qed.

Lemma clamp_idempotent_monotone_witness :
  clamp (-4) 0 100 <= clamp 130 0 100 /\ clamp 42 0 100 = 42.
Proof.
  split.
  - apply (proj1 (proj2 (clamp_idempotent_monotone (-4) 130 0 100))). lia.
  - apply (proj2 (proj2 (clamp_idempotent_monotone 42 42 0 100))). lia.
Defined.

(** ** The end of a turn and the loop body in closed form *)

Lemma turn_tail_exec (p : pet) :
  execState (decay_stats ;; check_health_drain ;; check_death ;; bump_turn) p
  = resolve p.
Proof.
  rewrite !execState_seq.
  rewrite decay_stats_exec, check_health_drain_exec. cbn [hunger].
  unfold resolve.
  destruct (clamp (hunger p - 5) 0 100 =? 0);
    rewrite check_death_exec; cbn [health with_int];
    match goal with |- context [?h <=? 0] => destruct (h <=? 0) end;
    rewrite bump_turn_exec; cbn [alive with_bool with_int];
    try reflexivity; destruct (alive p); reflexivity.
Qed.

Lemma turn_tail_run {A : Type} (a : A) (p : pet) :
  runState (decay_stats ;; check_health_drain ;; check_death ;;
            bump_turn ;; ret a) p = (a, resolve p).
Proof.
  rewrite <- turn_tail_exec. unfold execState.
  rewrite !runState_bind. reflexivity.
Qed.

Lemma iteration_asleep (answer : write_result) (action : string) (p : pet) :
  sleeping p = true ->
  runState (run_game_iteration answer action) p =
  (TurnResolved, resolve (execState process_sleep_turn p)).
Proof.
  intros Hs. unfold run_game_iteration. rewrite runState_bind.
  change (fst (runState (getflag k_sleeping) p)) with (sleeping p).
  change (snd (runState (getflag k_sleeping) p)) with p.
  rewrite Hs. rewrite runState_bind.
  fold (execState process_sleep_turn p). apply turn_tail_run.
Qed.

Lemma iteration_awake (answer : write_result) (action : string) (p : pet) :
  sleeping p = false ->
  runState (run_game_iteration answer action) p =
  if (action =? "f")%string then
    (TurnResolved, resolve (execState apply_feed p))
  else if (action =? "p")%string then
    (TurnResolved, resolve (execState apply_play p))
  else if (action =? "s")%string then
    (TurnResolved, resolve (execState start_sleep p))
  else if (action =? "c")%string then (TurnResolved, resolve p)
  else if (action =? "save")%string then (save_outcome answer SavedOnly p, p)
  else if (action =? "q")%string then (save_outcome answer Quit p, p)
  else (TurnResolved, resolve p).
Proof.
  intros Hs. unfold run_game_iteration. rewrite runState_bind.
  change (fst (runState (getflag k_sleeping) p)) with (sleeping p).
  change (snd (runState (getflag k_sleeping) p)) with p.
  rewrite Hs. cbv zeta.
  destruct (action =? "f")%string.
  { rewrite runState_bind. fold (execState apply_feed p).
    apply turn_tail_run. }
  destruct (action =? "p")%string.
  { rewrite runState_bind. fold (execState apply_play p).
    apply turn_tail_run. }
  destruct (action =? "s")%string.
  { rewrite runState_bind. fold (execState start_sleep p).
    apply turn_tail_run. }
  destruct (action =? "c")%string; [apply turn_tail_run|].
  destruct (action =? "save")%string; [destruct answer; reflexivity|].
  destruct (action =? "q")%string; [destruct answer; reflexivity|].
  apply turn_tail_run.
Qed.

(** ** The shape of the pet is kept *)

Ltac split_tests :=
  repeat match goal with
  | |- context [?a =? ?b] => destruct (Z.eqb_spec a b)
  | |- context [?a <=? ?b] => destruct (Z.leb_spec a b)
  end.

Ltac open_pet p :=
  destruct p as [nm h hp e hl t a s r];
  unfold well_formed, stats_in_range, in_range in *;
  cbn [name hunger happiness energy health turn alive sleeping
       sleep_turns_remaining with_int with_bool] in *.

Lemma resolve_well_formed (p : pet) : well_formed p -> well_formed (resolve p).
Proof.
  intros H. unfold resolve. open_pet p. unfold clamp.
  split_tests; destruct a; cbn; intuition lia.
Qed.

Lemma apply_feed_well_formed (p : pet) :
  well_formed p -> well_formed (execState apply_feed p).
Proof.
  intros H. rewrite apply_feed_exec. open_pet p. unfold clamp.
  intuition lia.
Qed.

Lemma apply_play_well_formed (p : pet) :
  well_formed p -> well_formed (execState apply_play p).
Proof.
  intros H. rewrite apply_play_exec. open_pet p. unfold clamp.
  intuition lia.
Qed.

Lemma start_sleep_well_formed (p : pet) :
  well_formed p -> well_formed (execState start_sleep p).
Proof.
  intros H. rewrite start_sleep_exec. open_pet p. intuition lia.
Qed.

Lemma process_sleep_turn_well_formed (p : pet) :
  well_formed p -> well_formed (execState process_sleep_turn p).
Proof.
  intros H. rewrite process_sleep_turn_exec. open_pet p. unfold clamp.
  split_tests; cbn; destruct H as (Hst & Hr & Hiff & Ht);
    (split; [|split; [|split]]); try lia; try exact Ht.
  split; intros _; [lia | apply Hiff; lia].
Qed.

(** X3. Whatever the action string, one pass through the loop body takes
    a well-formed pet (stats in [0,100], sleep counter in [0,3] and
    positive exactly when sleeping, turn at least 1) to a well-formed
    pet; and a pet made by make_pet is well-formed. *)
Theorem loop_body_keeps_well_formed
  (answer : write_result) (action : string) (p : pet) :
  (well_formed p ->
   well_formed (execState (run_game_iteration answer action) p)) /\
  (forall nm, well_formed (make_pet nm)).
Proof.
  split.
  - intros H. unfold execState. destruct (sleeping p) eqn:Hs.
    + rewrite (iteration_asleep answer action p Hs). cbn [snd].
      now apply resolve_well_formed, process_sleep_turn_well_formed.
    + rewrite (iteration_awake answer action p Hs).
      destruct (action =? "f")%string;
        [now apply resolve_well_formed, apply_feed_well_formed|].
      destruct (action =? "p")%string;
        [now apply resolve_well_formed, apply_play_well_formed|].
      destruct (action =? "s")%string;
        [now apply resolve_well_formed, start_sleep_well_formed|].
      destruct (action =? "c")%string; [now apply resolve_well_formed|].
      destruct (action =? "save")%string; [exact H|].
      destruct (action =? "q")%string; [exact H|].
      now apply resolve_well_formed.
  - intros nm. unfold well_formed, stats_in_range, in_range. cbn.
    intuition (try lia; try congruence).
Qed.

Lemma loop_body_keeps_well_formed_witness :
  let napping := Pet "Pip" 4 30 55 20 6 true true 1 in
  well_formed napping /\
  well_formed (execState (run_game_iteration Written "p") napping).
Proof.
  intros napping.
  assert (H : well_formed napping).
  { unfold well_formed, stats_in_range, in_range. cbn.
    repeat split; try lia; intros; reflexivity. }
  split; [exact H|].
  exact (proj1 (loop_body_keeps_well_formed Written "p" napping) H).
Defined.

(** ** Health, death and the turn counter over one pass *)

(** Every pass either resolves a turn on the pet one action has worked
    on, or calls save_game and leaves the pet as it is. *)
Lemma iteration_shape (answer : write_result) (action : string) (p : pet) :
  (exists q,
     runState (run_game_iteration answer action) p
     = (TurnResolved, resolve q) /\
     (q = p \/ q = execState apply_feed p \/ q = execState apply_play p \/
      q = execState start_sleep p \/ q = execState process_sleep_turn p)) \/
  runState (run_game_iteration answer action) p = (SavedOnly p, p) \/
  runState (run_game_iteration answer action) p = (Quit p, p) \/
  runState (run_game_iteration answer action) p = (Raised, p).
Proof.
  destruct (sleeping p) eqn:Hs.
  - left. eexists. split; [apply (iteration_asleep answer action p Hs)|].
    tauto.
  - rewrite (iteration_awake answer action p Hs).
    destruct (action =? "f")%string; [left; eexists; split; eauto|].
    destruct (action =? "p")%string; [left; eexists; split; eauto|].
    destruct (action =? "s")%string; [left; eexists; split; eauto 6|].
    destruct (action =? "c")%string; [left; eexists; split; eauto|].
    destruct (action =? "save")%string; [destruct answer; cbn; auto|].
    destruct (action =? "q")%string; [destruct answer; cbn; auto|].
    left; eexists; split; eauto.
Qed.

Lemma action_keeps_vitals (p q : pet) :
  q = p \/ q = execState apply_feed p \/ q = execState apply_play p \/
  q = execState start_sleep p \/ q = execState process_sleep_turn p ->
  health q = health p /\ alive q = alive p /\ turn q = turn p /\
  name q = name p.
Proof.
  intros [-> | [-> | [-> | [-> | ->]]]].
  - auto.
  - rewrite apply_feed_exec. auto.
  - rewrite apply_play_exec. auto.
  - rewrite start_sleep_exec. auto.
  - rewrite process_sleep_turn_exec.
    destruct (sleep_turns_remaining p - 1 <=? 0); auto.
Qed.

Lemma resolve_health (q : pet) :
  (0 <= health q -> health (resolve q) <= health q) /\
  (health q <= 100 -> health q - 10 <= health (resolve q)).
Proof.
  unfold resolve. cbn [health]. unfold clamp.
  split_tests; lia.
Qed.

Lemma resolve_alive (q : pet) :
  alive q = true ->
  (alive (resolve q) = true <-> 0 < health (resolve q)) /\
  turn (resolve q) = turn q + (if alive (resolve q) then 1 else 0).
Proof.
  intros Ha. unfold resolve. cbn [health alive turn]. rewrite Ha.
  split_tests; cbn; (split; [split; intros; (lia || congruence) | lia]).
Qed.

(** X4. Nothing heals: over one pass through the loop body, whatever the
    action, a health that is not negative never rises, and a health of
    at most 100 falls by at most 10. *)
Theorem health_never_rises
  (answer : write_result) (action : string) (p : pet) :
  let p' := execState (run_game_iteration answer action) p in
  (0 <= health p -> health p' <= health p) /\
  (health p <= 100 -> health p - 10 <= health p').
Proof.
  unfold execState.
  destruct (iteration_shape answer action p)
    as [(q & -> & Hq)|[-> | [-> | ->]]];
    cbn [snd]; try lia.
  destruct (action_keeps_vitals p q Hq) as (Hh & _).
  rewrite <- Hh. apply resolve_health.
Qed.

Lemma health_never_rises_witness :
  let hungry := Pet "Pip" 3 50 50 40 2 true false 0 in
  30 <= health (execState (run_game_iteration Written "p") hungry) <= 40.
Proof.
  intros hungry. split.
  - apply (proj2 (health_never_rises Written "p" hungry)). simpl. lia.
  - apply (proj1 (health_never_rises Written "p" hungry)). simpl. lia.
Defined.

(** X5. When a pass resolves a turn of a living pet (any action but
    save and quit, or a sleeping turn), the pet is alive afterwards
    exactly when its health is above 0, and the turn counter has gone
    up by one exactly when it is alive; the name is never changed. *)
Theorem resolved_turn_accounting
  (answer : write_result) (action : string) (p : pet) :
  alive p = true ->
  evalState (run_game_iteration answer action) p = TurnResolved ->
  let p' := execState (run_game_iteration answer action) p in
  (alive p' = true <-> 0 < health p') /\
  turn p' = turn p + (if alive p' then 1 else 0) /\
  name p' = name p.
Proof.
  intros Ha Ho. unfold evalState in Ho. unfold execState.
  destruct (iteration_shape answer action p)
    as [(q & E & Hq)|[E | [E | E]]];
    rewrite E in *; cbn [fst snd] in *; try discriminate.
  destruct (action_keeps_vitals p q Hq) as (_ & Hal & Ht & Hn).
  rewrite <- Ht, <- Hn. rewrite <- Hal in Ha.
  destruct (resolve_alive q Ha) as (H1 & H2).
  split; [exact H1|]. split; [exact H2|]. reflexivity.
Qed.

Lemma resolved_turn_accounting_witness :
  let weak := Pet "Pip" 5 50 50 10 9 true false 0 in
  let after := execState (run_game_iteration Written "p") weak in
  (alive weak = true /\
   evalState (run_game_iteration Written "p") weak = TurnResolved) /\
  (alive after = true <-> 0 < health after) /\
  turn after = 9 + (if alive after then 1 else 0) /\
  name after = "Pip"%string.
Proof.
  intros weak after. split; [split; reflexivity|].
  apply (resolved_turn_accounting Written "p" weak); reflexivity.
Defined.

(** ** prompt_action *)

Lemma in_valid_cases (ch : Z) :
  in_valid ch = true ->
  In ch (List.map ord ["f"; "p"; "s"; "c"; "S"; "q"]%char).
Proof.
  unfold in_valid. intros H.
  apply existsb_exists in H as (x & Hin & Heq).
  apply Z.eqb_eq in Heq. subst x. exact Hin.
Qed.

Lemma in_valid_complete (ch : Z) :
  In ch (List.map ord ["f"; "p"; "s"; "c"; "S"; "q"]%char) ->
  in_valid ch = true.
Proof.
  intros Hin. unfold in_valid. apply existsb_exists.
  exists ch. split; [exact Hin | apply Z.eqb_refl].
Qed.

Lemma lstrip_blanks (blanks s : pystr) :
  blank blanks -> lstrip (blanks ++ s) = lstrip s.
Proof.
  intros Hb. induction Hb as [|b blanks Hsp _ IH]; [reflexivity|].
  cbn [app lstrip]. rewrite Hsp. exact IH.
Qed.

Lemma lstrip_keeps_last (l : pystr) (c : Z) :
  isspace c = false -> exists l', lstrip (l ++ [c]) = l' ++ [c].
Proof.
  intros Hc. induction l as [|x l IH]; cbn [app lstrip].
  - rewrite Hc. exists []. reflexivity.
  - destruct (isspace x); [exact IH|]. exists (x :: l). reflexivity.
Qed.

Lemma strip_first_char (line : pystr) (x : Z) :
  first_char line x -> exists tail', strip line = x :: tail'.
Proof.
  intros (blanks & tail & -> & Hb & Hx). unfold strip, rstrip.
  rewrite (lstrip_blanks blanks (x :: tail) Hb). cbn [lstrip]. rewrite Hx.
  cbn [rev].
  destruct (lstrip_keeps_last (rev tail) x Hx) as (l' & ->).
  rewrite rev_unit. eauto.
Qed.

Lemma strip_blank (line : pystr) : blank line -> strip line = [].
Proof.
  intros Hb. unfold strip, rstrip.
  rewrite <- (app_nil_r line), (lstrip_blanks line [] Hb). reflexivity.
Qed.

Lemma prompt_action_on_blank (line : pystr) (rest : list console_event) :
  blank line -> prompt_action (Input line :: rest) = prompt_action rest.
Proof.
  intros Hb. cbn [prompt_action]. rewrite (strip_blank line Hb).
  reflexivity.
Qed.

Lemma prompt_action_on_first_char
      (line : pystr) (x : Z) (rest : list console_event) :
  first_char line x ->
  prompt_action (Input line :: rest) =
  if x =? ord "S" then ("save"%string, rest)
  else if in_valid x then (chr x, rest)
  else prompt_action rest.
Proof.
  intros Hx. cbn [prompt_action].
  destruct (strip_first_char line x Hx) as (tail' & ->). reflexivity.
Qed.

(** X6. Whatever is typed, prompt_action returns one of "f", "p", "s",
    "c", "save" and "q": the loop body's branches cover every action it
    is ever given, and "S" itself is never returned. *)
Theorem prompt_action_returns_known_action (events : list console_event) :
  In (fst (prompt_action events))
     ["f"; "p"; "s"; "c"; "save"; "q"]%string.
Proof.
  induction events as [|ev rest IH]; cbn [prompt_action fst].
  - cbn. tauto.
  - destruct ev as [line| |]; cbn [fst]; [|cbn; tauto|cbn; tauto].
    destruct (strip line) as [|ch tail]; [exact IH|].
    destruct (Z.eqb_spec ch (ord "S")) as [->|NS]; [cbn; tauto|].
    destruct (in_valid ch) eqn:Hv; [|exact IH].
    cbn [fst]. apply in_valid_cases in Hv. cbn [List.map In] in Hv.
    destruct Hv as [<- | [<- | [<- | [<- | [<- | [<- | []]]]]]];
      cbn; tauto.
Qed.

(** X7. prompt_action strips each line and passes over the lines that
    are blank or whose first character after the leading whitespace is
    none of f, p, s, c, S, q.  It then decides on that first character
    alone of the first usable line, whatever follows it: "save" for S,
    the character itself for f, p, s, c and q.  An EOFError or
    KeyboardInterrupt met first, or a console with nothing usable left,
    gives "q".  The events after the deciding one are left unread. *)
Theorem prompt_action_skips_unusable (junk rest : list console_event) :
  Forall unusable junk ->
  (forall line c,
     first_char line c ->
     In c (List.map ord ["f"; "p"; "s"; "c"; "q"]%char) ->
     prompt_action (junk ++ Input line :: rest) = (chr c, rest)) /\
  (forall line,
     first_char line (ord "S") ->
     prompt_action (junk ++ Input line :: rest) = ("save"%string, rest)) /\
  prompt_action (junk ++ EOFError :: rest) = ("q"%string, rest) /\
  prompt_action (junk ++ KeyboardInterrupt :: rest) = ("q"%string, rest) /\
  prompt_action junk = ("q"%string, []).
Proof.
  intros Hjunk. induction Hjunk as [|ev junk Hev _ IH].
  - cbn [app]. split; [|split; [|repeat split]].
    + intros line c Hc Hin. rewrite (prompt_action_on_first_char _ _ _ Hc).
      cbn [List.map In] in Hin.
      destruct Hin as [<- | [<- | [<- | [<- | [<- | []]]]]]; reflexivity.
    + intros line Hc. rewrite (prompt_action_on_first_char _ _ _ Hc).
      reflexivity.
  - assert (Hskip : forall more,
               prompt_action ((ev :: junk) ++ more) =
               prompt_action (junk ++ more)).
    { intros more. destruct Hev as (line & -> & [Hb | (x & Hx & Hnot)]);
        cbn [app].
      - apply prompt_action_on_blank, Hb.
      - rewrite (prompt_action_on_first_char _ _ _ Hx).
        destruct (Z.eqb_spec x (ord "S")) as [->|_].
        + exfalso. apply Hnot. cbn. tauto.
        + destruct (in_valid x) eqn:Hv; [|reflexivity].
          exfalso. apply Hnot. now apply in_valid_cases. }
    destruct IH as (IH1 & IH2 & IH3 & IH4 & IH5).
    split; [|split; [|split; [|split]]].
    + intros line c Hc Hin. rewrite Hskip. now apply IH1.
    + intros line Hc. rewrite Hskip. now apply IH2.
    + rewrite Hskip. exact IH3.
    + rewrite Hskip. exact IH4.
    + rewrite <- (app_nil_r (ev :: junk)), Hskip, app_nil_r. exact IH5.
Qed.

Lemma prompt_action_skips_unusable_witness :
  prompt_action [Entered ""; Entered "   "; Entered " xyz";
                 Entered "  feed me "; Entered "q"]
  = ("f"%string, [Entered "q"]) /\
  prompt_action [Entered "Zzz"; Entered " Save now"; EOFError]
  = ("save"%string, [EOFError]).
Proof.
  assert (Hsp : isspace 32 = true) by reflexivity.
  assert (Hx : Forall unusable
                 [Entered ""; Entered "   "; Entered " xyz"]).
  { constructor; [|constructor; [|constructor; [|constructor]]].
    - eexists. split; [reflexivity|]. left. constructor.
    - eexists. split; [reflexivity|]. left. repeat constructor.
    - eexists. split; [reflexivity|]. right. exists (ord "x"). split.
      + exists [32], (code_points "yz"). repeat split. repeat constructor.
      + cbn. intros H. repeat (destruct H as [H|H]; [discriminate H|]).
        exact H. }
  assert (Hz : Forall unusable [Entered "Zzz"]).
  { constructor; [|constructor].
    eexists. split; [reflexivity|]. right. exists (ord "Z"). split.
    - exists [], (code_points "zz"). repeat split. constructor.
    - cbn. intros H. repeat (destruct H as [H|H]; [discriminate H|]).
      exact H. }
  split.
  - apply (proj1 (prompt_action_skips_unusable _ [Entered "q"] Hx)
                 (code_points "  feed me ") (ord "f")).
    + exists [32; 32], (code_points "eed me "). repeat split.
      repeat constructor.
    + cbn. tauto.
  - apply (proj1 (proj2 (prompt_action_skips_unusable _ [EOFError] Hz))
                 (code_points " Save now")).
    exists [32], (code_points "ave now"). repeat split.
    repeat constructor.
Defined.

Lemma prompt_action_consumes (events : list console_event) :
  (List.length (snd (prompt_action events)) <= List.length events)%nat /\
  (events <> [] ->
   (List.length (snd (prompt_action events)) < List.length events)%nat) /\
  (events = [] -> prompt_action events = ("q"%string, [])).
Proof.
  induction events as [|ev rest IH].
  - cbn. repeat split; auto. intros C. contradiction.
  - assert (H : (List.length (snd (prompt_action (ev :: rest)))
                 < List.length (ev :: rest))%nat).
    { destruct IH as (IH & _).
      destruct ev as [line| |]; cbn [prompt_action snd List.length];
        try lia.
      destruct (strip line) as [|ch tail]; [lia|].
      destruct (ch =? ord "S"); cbn [snd]; [lia|].
      destruct (in_valid ch); cbn [snd]; lia. }
    repeat split; [lia | intros _; exact H | discriminate].
Qed.

(** ** Faces *)

(** X8. The mood of any pet is a key of FACES, so render_pet never falls
    back on its default face, and the face it shows is never the dead
    face "(x_x)". *)
Theorem render_pet_face_is_a_mood_face (p : pet) :
  dict_get FACES (evalState get_mood p) = Some (render_pet_face p) /\
  render_pet_face p <> "(x_x)"%string.
Proof.
  unfold render_pet_face. rewrite get_mood_eval.
  destruct (sleeping p); [split; [reflexivity | discriminate]|].
  destruct ((hunger p >=? 50) && (happiness p >=? 50) && (energy p >=? 30));
    [split; [reflexivity | discriminate]|].
  destruct ((hunger p <? 25) || (happiness p <? 25) || (energy p <? 20));
    split; (reflexivity || discriminate).
Qed.

(** ** The whole loop *)

Lemma main_loop_step (fs : world -> write_result) (k : nat) (w : world) :
  main_loop fs (S k) w =
  let p := the_pet w in
  if alive p then
    if sleeping p then
      main_loop fs k (World (resolve (execState process_sleep_turn p))
                            (console w) (save_file w))
    else
      let (action, rest) := prompt_action (console w) in
      match runState (run_game_iteration (fs w) action) p with
      | (TurnResolved, p') => main_loop fs k (World p' rest (save_file w))
      | (SavedOnly snap, p') =>
          main_loop fs k (World p' rest (Some (Snapshot snap)))
      | (Quit snap, p') =>
          Some (Exited (World p' rest (Some (Snapshot snap))))
      | (Raised, p') =>
          Some (Aborted (World p' rest
                           (after_failed_write (fs w) (save_file w))))
      end
  else Some (Died (World p (console w) None)).
Proof.
  cbn [main_loop]. cbv zeta.
  rewrite (execState_seq process_sleep_turn), turn_tail_exec. reflexivity.
Qed.

Lemma resolve_sleep_fields (q : pet) :
  sleeping (resolve q) = sleeping q /\
  sleep_turns_remaining (resolve q) = sleep_turns_remaining q.
Proof. split; reflexivity. Qed.

Lemma loop_bound_asleep (p : pet) (events : list console_event)
      (sf : option saved_file) (k : nat) :
  sleeping p = true ->
  (loop_bound (World p events sf) <= S k)%nat ->
  (loop_bound (World (resolve (execState process_sleep_turn p)) events sf)
   <= k)%nat.
Proof.
  unfold loop_bound. cbn [the_pet console]. intros Hs.
  destruct (resolve_sleep_fields (execState process_sleep_turn p))
    as (-> & ->).
  rewrite process_sleep_turn_exec, Hs.
  destruct (Z.leb_spec (sleep_turns_remaining p - 1) 0);
    cbn [sleeping sleep_turns_remaining]; lia.
Qed.

Lemma loop_bound_awake (q : pet) (events rest : list console_event)
      (sf sf' : option saved_file) (k : nat) :
  (List.length rest < List.length events)%nat ->
  (sleeping q = true -> sleep_turns_remaining q = 3) ->
  (S (4 * List.length events) <= S k)%nat ->
  (loop_bound (World (resolve q) rest sf') <= k)%nat.
Proof.
  unfold loop_bound. cbn [the_pet console]. intros Hlen Hq Hk.
  destruct (resolve_sleep_fields q) as (-> & ->).
  destruct (sleeping q); [rewrite Hq by reflexivity; cbn|]; lia.
Qed.

(** X9. The loop always ends: whatever the file system does, on any
    console contents and from any pet, loop_bound passes are enough for
    main_loop to end, on the death screen, in the exit, or by the
    OSError of a save that failed.  (Four passes per console event,
    since one "s" is followed by three sleeping passes that read
    nothing, plus what is left of a sleep under way.) *)
Theorem main_loop_terminates
  (fs : world -> write_result) (fuel : nat) (w : world) :
  (loop_bound w <= fuel)%nat -> exists e, main_loop fs fuel w = Some e.
Proof.
  revert w. induction fuel as [|k IH]; intros w Hb.
  - unfold loop_bound in Hb. lia.
  - rewrite main_loop_step. cbv zeta.
    generalize (fs w). intros answer.
    destruct w as [p events sf].
    cbn [the_pet console save_file] in *.
    destruct (alive p); [|eauto].
    destruct (sleeping p) eqn:Hs.
    + apply IH. now apply loop_bound_asleep.
    + assert (Hk : (S (4 * List.length events) <= S k)%nat).
      { unfold loop_bound in Hb. cbn [the_pet console] in Hb.
        rewrite Hs in Hb. lia. }
      destruct (prompt_action_consumes events) as (_ & Hlt & Hnil).
      destruct (prompt_action events) as [action rest] eqn:Hpa.
      cbn [snd] in Hlt.
      rewrite (iteration_awake answer action p Hs).
      destruct events as [|ev events'].
      { specialize (Hnil eq_refl). inversion Hnil; subst.
        destruct answer; cbn; eauto. }
      assert (Hlen : (List.length rest < List.length (ev :: events'))%nat)
        by (apply Hlt; discriminate).
      destruct (action =? "f")%string.
      { apply IH. apply loop_bound_awake with (events := ev :: events');
          auto. rewrite apply_feed_exec. cbn. congruence. }
      destruct (action =? "p")%string.
      { apply IH. apply loop_bound_awake with (events := ev :: events');
          auto. rewrite apply_play_exec. cbn. congruence. }
      destruct (action =? "s")%string.
      { apply IH. apply loop_bound_awake with (events := ev :: events');
          auto. }
      destruct (action =? "c")%string.
      { apply IH. apply loop_bound_awake with (events := ev :: events');
          auto. congruence. }
      destruct (action =? "save")%string.
      { destruct answer; cbn [save_outcome]; eauto.
        apply IH. unfold loop_bound. cbn [the_pet console].
        rewrite Hs. lia. }
      destruct (action =? "q")%string;
        [destruct answer; cbn [save_outcome]; eauto|].
      apply IH. apply loop_bound_awake with (events := ev :: events');
        auto. congruence.
Qed.

Lemma main_loop_terminates_witness :
  let w := World (make_pet "Pip")
                 [Entered "s"; Entered "p"; Entered "S"]%string None in
  (loop_bound w <= 13)%nat /\
  (exists e, main_loop (fun _ => Written) 13 w = Some e) /\
  (exists e, main_loop (fun _ => OpenRaises) 13 w = Some e).
Proof.
  intros w.
  assert (Hb : (loop_bound w <= 13)%nat) by (vm_compute; lia).
  split; [exact Hb|]. split.
  - exact (main_loop_terminates (fun _ => Written) 13 w Hb).
  - exact (main_loop_terminates (fun _ => OpenRaises) 13 w Hb).
Defined.

Lemma main_loop_more_fuel (fs : world -> write_result) (fuel fuel' : nat)
      (w : world) (e : ending) :
  main_loop fs fuel w = Some e -> (fuel <= fuel')%nat ->
  main_loop fs fuel' w = Some e.
Proof.
  revert fuel' w. induction fuel as [|k IH]; intros fuel' w H Hle.
  - discriminate.
  - destruct fuel' as [|k']; [lia|].
    assert (Hk : (k <= k')%nat) by lia.
    cbn [main_loop] in *. cbv zeta in *.
    destruct (alive (the_pet w)); [|exact H].
    destruct (sleeping (the_pet w)); [now apply IH|].
    destruct (prompt_action (console w)) as [action rest].
    destruct (runState (run_game_iteration (fs w) action) (the_pet w))
      as [[|snap|snap|] p'];
      [now apply IH | now apply IH | exact H | exact H].
Qed.





Lemma step_keeps_shape (p q : pet) :
  well_formed p ->
  q = p \/ q = execState apply_feed p \/ q = execState apply_play p \/
  q = execState start_sleep p \/ q = execState process_sleep_turn p ->
  well_formed (resolve q) /\ name (resolve q) = name p /\
  turn p <= turn (resolve q).
Proof.
  intros Hwf Hq.
  destruct (action_keeps_vitals p q Hq) as (_ & _ & Ht & Hn).
  split; [|split].
  - apply resolve_well_formed.
    destruct Hq as [-> | [-> | [-> | [-> | ->]]]];
      auto using apply_feed_well_formed, apply_play_well_formed,
                 start_sleep_well_formed, process_sleep_turn_well_formed.
  - rewrite <- Hn. reflexivity.
  - rewrite <- Ht. unfold resolve. cbn [turn].
    match goal with |- context [if ?b then _ else _] => destruct b end; lia.
Qed.

(** X11. Whatever is typed, a game that starts from a well-formed pet
    ends with a well-formed pet (stats in [0,100], sleep counter in
    [0,3] and positive exactly when sleeping) that has the name it
    started with and a turn counter that has not gone down. *)
Theorem main_loop_keeps_shape
  (fs : world -> write_result) (fuel : nat) (w : world) (e : ending) :
  well_formed (the_pet w) ->
  main_loop fs fuel w = Some e ->
  well_formed (the_pet (final_world e)) /\
  name (the_pet (final_world e)) = name (the_pet w) /\
  turn (the_pet w) <= turn (the_pet (final_world e)).
Proof.
  revert w. induction fuel as [|k IH]; intros w Hwf H; [discriminate|].
  rewrite main_loop_step in H. cbv zeta in H.
  generalize dependent (fs w). intros answer H.
  destruct w as [p events sf]. cbn [the_pet console save_file] in *.
  assert (Hstep : forall q rest sf',
             q = p \/ q = execState apply_feed p \/
             q = execState apply_play p \/ q = execState start_sleep p \/
             q = execState process_sleep_turn p ->
             main_loop fs k (World (resolve q) rest sf') = Some e ->
             well_formed (the_pet (final_world e)) /\
             name (the_pet (final_world e)) = name p /\
             turn p <= turn (the_pet (final_world e))).
  { intros q rest sf' Hq Hrun.
    destruct (step_keeps_shape p q Hwf Hq) as (Hwf' & Hn & Ht).
    destruct (IH (World (resolve q) rest sf') Hwf' Hrun) as (H1 & H2 & H3).
    cbn [the_pet] in *.
    split; [exact H1|]. split; [congruence | lia]. }
  destruct (alive p).
  - destruct (sleeping p).
    + apply (Hstep _ _ _ (or_intror (or_intror (or_intror (or_intror
               eq_refl)))) H).
    + destruct (prompt_action events) as [action rest].
      destruct (iteration_shape answer action p)
        as [(q & E & Hq)|[E | [E | E]]]; rewrite E in H.
      * exact (Hstep _ _ _ Hq H).
      * destruct (IH (World p rest (Some (Snapshot p))) Hwf H)
          as (H1 & H2 & H3).
        cbn [the_pet] in *. auto.
      * injection H as <-. cbn. split; [exact Hwf|]. split; [auto | lia].
      * injection H as <-. cbn. split; [exact Hwf|]. split; [auto | lia].
  - injection H as <-. cbn. split; [exact Hwf|]. split; [auto | lia].
Qed.

Lemma main_loop_keeps_shape_witness :
  let w := World (make_pet "Pip")
                 [Entered "s"; Entered "p"; Entered "q"]%string None in
  let e := Exited (World (Pet "Pip" 55 90 77 100 6 true false 0) []
                    (Some (Snapshot (Pet "Pip" 55 90 77 100 6 true false 0))))
  in
  (well_formed (the_pet w) /\
   main_loop (fun _ => Written) 9 w = Some e) /\
  well_formed (the_pet (final_world e)) /\
  name (the_pet (final_world e)) = "Pip"%string /\
  1 <= turn (the_pet (final_world e)).
Proof.
  intros w e.
  assert (Hwf : well_formed (the_pet w)).
  { unfold well_formed, stats_in_range, in_range. cbn.
    repeat split; try lia; intros; (lia || discriminate). }
  assert (Hrun : main_loop (fun _ => Written) 9 w = Some e)
    by reflexivity.
  split; [split; assumption|].
  exact (main_loop_keeps_shape (fun _ => Written) 9 w e Hwf Hrun).
Defined.

(** ** Neglect and care *)

Lemma main_loop_awake_turn (fs : world -> write_result) (k : nat)
      (p p' : pet) (action : string)
      (events rest : list console_event) (sf : option saved_file) :
  alive p = true -> sleeping p = false ->
  prompt_action events = (action, rest) ->
  (forall answer,
     runState (run_game_iteration answer action) p = (TurnResolved, p')) ->
  main_loop fs (S k) (World p events sf)
  = main_loop fs k (World p' rest sf).
Proof.
  intros Ha Hs Hpa Hrun. rewrite main_loop_step. cbv zeta.
  cbn [the_pet console save_file]. rewrite Ha, Hs, Hpa, Hrun. reflexivity.
Qed.

Lemma main_loop_asleep_turn (fs : world -> write_result) (k : nat) (p : pet)
      (events : list console_event) (sf : option saved_file) :
  alive p = true -> sleeping p = true ->
  main_loop fs (S k) (World p events sf) =
  main_loop fs k
    (World (resolve (execState process_sleep_turn p)) events sf).
Proof.
  intros Ha Hs. rewrite main_loop_step. cbv zeta.
  cbn [the_pet console save_file]. rewrite Ha, Hs. reflexivity.
Qed.




Lemma resolve_fed (p : pet) :
  alive p = true -> 0 <= hunger p -> 0 < health p ->
  let q := resolve (execState apply_feed p) in
  25 <= hunger q /\ health q = health p /\ alive q = true /\
  turn q = turn p + 1 /\ sleeping q = sleeping p /\ name q = name p.
Proof.
  intros Ha Hh Hhl. cbv zeta. rewrite apply_feed_exec. unfold resolve.
  cbn [hunger name sleeping health alive turn with_int]. rewrite Ha.
  assert (E : 25 <= clamp (clamp (hunger p + 30) 0 100 - 5) 0 100)
    by (unfold clamp; lia).
  destruct (Z.eqb_spec (clamp (clamp (hunger p + 30) 0 100 - 5) 0 100) 0);
    [lia|].
  destruct (Z.leb_spec (health p) 0); [lia|].
  repeat split; try reflexivity. exact E.
Qed.

(** X13. Care is enough: an awake, living pet with hunger at least 0 and
    health above 0 that is fed on each of n turns in a row comes through
    all n alive and awake, with its health untouched and its turn
    counter n higher; the loop then carries on with the rest of the
    console. *)
Theorem fed_pet_survives
  (fs : world -> write_result) (n fuel : nat) (p : pet)
  (rest : list console_event) (sf : option saved_file) :
  alive p = true -> sleeping p = false -> 0 <= hunger p -> 0 < health p ->
  exists f,
    main_loop fs (n + fuel)
      (World p (repeat (Entered "f") n ++ rest) sf) =
    main_loop fs fuel (World f rest sf) /\
    alive f = true /\ sleeping f = false /\ health f = health p /\
    turn f = turn p + Z.of_nat n /\ 0 <= hunger f /\ name f = name p.
Proof.
  revert p. induction n as [|n IH]; intros p Ha Hs Hh Hhl.
  - exists p. cbn [repeat app Nat.add]. repeat split; auto. lia.
  - cbn [repeat app Nat.add].
    rewrite (main_loop_awake_turn fs (n + fuel) p
               (resolve (execState apply_feed p)) "f"
               (Entered "f" :: repeat (Entered "f") n ++ rest)
               (repeat (Entered "f") n ++ rest) sf Ha Hs eq_refl)
      by (intros answer; rewrite (iteration_awake answer "f" p Hs);
          reflexivity).
    destruct (resolve_fed p Ha Hh Hhl) as (Q1 & Q2 & Q3 & Q4 & Q5 & Q6).
    destruct (IH (resolve (execState apply_feed p)))
      as (f & Hrun & F1 & F2 & F3 & F4 & F5 & F6);
      try assumption; try congruence; try lia.
    exists f. split; [exact Hrun|].
    repeat split; try assumption; try congruence; lia.
Qed.

Lemma fed_pet_survives_witness :
  let p := Pet "Pip" 0 10 10 1 30 true false 0 in
  (alive p = true /\ sleeping p = false /\ 0 <= hunger p /\
   0 < health p) /\
  exists f,
    main_loop (fun _ => Written) (5 + 1)
      (World p (repeat (Entered "f") 5 ++ []) None) =
    main_loop (fun _ => Written) 1 (World f [] None) /\
    alive f = true /\ sleeping f = false /\ health f = 1 /\
    turn f = 30 + Z.of_nat 5 /\ 0 <= hunger f /\ name f = "Pip"%string.
Proof.
  intros p. split.
  - repeat split; simpl; lia.
  - apply (fed_pet_survives (fun _ => Written) 5 1 p [] None);
      simpl; (reflexivity || lia).
Defined.

(** ** A night's sleep *)

Lemma safe_resolve (q : pet) :
  alive q = true -> 0 < health q -> 5 < hunger q <= 105 ->
  resolve q =
  Pet (name q) (hunger q - 5) (clamp (happiness q - 2) 0 100)
      (clamp (energy q - 4) 0 100) (health q) (turn q + 1) true
      (sleeping q) (sleep_turns_remaining q).
Proof.
  intros Ha Hhl Hh. unfold resolve. rewrite Ha.
  assert (E : clamp (hunger q - 5) 0 100 = hunger q - 5)
    by (unfold clamp; lia).
  rewrite E.
  destruct (Z.eqb_spec (hunger q - 5) 0); [lia|].
  destruct (Z.leb_spec (health q) 0); [lia|]. reflexivity.
Qed.

Lemma asleep_pass (fs : world -> write_result) (k : nat) (p : pet)
      (events : list console_event) (sf : option saved_file) :
  alive p = true -> sleeping p = true -> 0 < health p ->
  5 < hunger p <= 105 -> 0 <= energy p ->
  exists p',
    main_loop fs (S k) (World p events sf)
    = main_loop fs k (World p' events sf) /\
    alive p' = true /\ health p' = health p /\ hunger p' = hunger p - 5 /\
    turn p' = turn p + 1 /\ name p' = name p /\
    Z.min 96 (energy p + 21) <= energy p' <= 96 /\
    sleeping p' = negb (sleep_turns_remaining p - 1 <=? 0) /\
    sleep_turns_remaining p' = Z.max 0 (sleep_turns_remaining p - 1).
Proof.
  intros Ha Hs Hhl Hh He.
  exists (resolve (execState process_sleep_turn p)).
  split; [now apply main_loop_asleep_turn|].
  rewrite process_sleep_turn_exec.
  destruct (Z.leb_spec (sleep_turns_remaining p - 1) 0);
    rewrite safe_resolve by (cbn; assumption);
    cbn [alive health hunger turn name energy sleeping
         sleep_turns_remaining negb];
    unfold clamp; repeat split; try lia. exact Hs.
Qed.

(** X14. A night's sleep: for an awake, living pet with health above 0
    and hunger in (20,100], the "s" action and the three sleeping passes
    after it take four passes and read nothing from the console but the
    "s".  The pet wakes alive with the sleep counter at 0, its turn
    counter 4 higher, its health untouched, its hunger 20 lower and its
    energy between 63 and 96. *)
Theorem sleep_cycle_takes_four_turns
  (fs : world -> write_result) (fuel : nat) (p : pet)
  (rest : list console_event) (sf : option saved_file) :
  alive p = true -> sleeping p = false -> 0 < health p ->
  20 < hunger p <= 100 ->
  exists f,
    main_loop fs (4 + fuel) (World p (Entered "s" :: rest) sf) =
    main_loop fs fuel (World f rest sf) /\
    alive f = true /\ sleeping f = false /\ sleep_turns_remaining f = 0 /\
    turn f = turn p + 4 /\ health f = health p /\
    hunger f = hunger p - 20 /\ 63 <= energy f <= 96 /\ name f = name p.
Proof.
  intros Ha Hs Hhl Hh.
  change (4 + fuel)%nat with (S (S (S (S fuel)))).
  rewrite (main_loop_awake_turn fs (S (S (S fuel))) p
             (resolve (execState start_sleep p)) "s"
             (Entered "s" :: rest) rest sf Ha Hs eq_refl)
    by (intros answer; rewrite (iteration_awake answer "s" p Hs);
        reflexivity).
  rewrite start_sleep_exec, safe_resolve by (cbn; (assumption || lia)).
  cbn [name hunger happiness energy health turn alive sleeping
       sleep_turns_remaining].
  set (p1 := Pet _ _ _ _ _ _ _ _ _).
  destruct (asleep_pass fs (S (S fuel)) p1 rest sf)
    as (p2 & -> & A2 & H2 & G2 & T2 & N2 & E2 & S2 & R2);
    try reflexivity; try (subst p1; cbn; (assumption || lia)).
  { subst p1. cbn. unfold clamp. lia. }
  subst p1.
  cbn [name hunger energy health turn sleep_turns_remaining] in *.
  change (3 - 1) with 2 in *. cbn [Z.leb Z.compare negb Z.max] in S2, R2.
  destruct (asleep_pass fs (S fuel) p2 rest sf)
    as (p3 & -> & A3 & H3 & G3 & T3 & N3 & E3 & S3 & R3);
    try assumption; try (unfold clamp in E2; lia).
  rewrite R2 in S3, R3. change (2 - 1) with 1 in *.
  cbn [Z.leb Z.compare negb Z.max] in S3, R3.
  destruct (asleep_pass fs fuel p3 rest sf)
    as (p4 & -> & A4 & H4 & G4 & T4 & N4 & E4 & S4 & R4);
    try assumption; try (unfold clamp in E2; lia).
  rewrite R3 in S4, R4. change (1 - 1) with 0 in *.
  cbn [Z.leb Z.compare negb Z.max] in S4, R4.
  exists p4. split; [reflexivity|].
  unfold clamp in E2.
  repeat split; try assumption; try congruence; lia.
Qed.

Lemma sleep_cycle_takes_four_turns_witness :
  let p := Pet "Pip" 45 60 3 80 11 true false 0 in
  (alive p = true /\ sleeping p = false /\ 0 < health p /\
   20 < hunger p <= 100) /\
  exists f,
    main_loop (fun _ => Written) (4 + 1)
      (World p [Entered "s"; Entered "q"]%string None) =
    main_loop (fun _ => Written) 1 (World f [Entered "q"]%string None) /\
    alive f = true /\ sleeping f = false /\ sleep_turns_remaining f = 0 /\
    turn f = 11 + 4 /\ health f = 80 /\ hunger f = 45 - 20 /\
    63 <= energy f <= 96 /\ name f = "Pip"%string.
Proof.
  intros p. split.
  - repeat split; simpl; lia.
  - apply (sleep_cycle_takes_four_turns (fun _ => Written) 1 p
             [Entered "q"%string] None);
      simpl; (reflexivity || lia).
Defined.

(** ** Saving *)




(** ** Decay *)

(** X16. decay_stats changes nothing but hunger, energy and happiness,
    and on a pet whose stats are in [0,100] it takes 5, 4 and 2 off
    them, stopping at 0: no stat ever rises through decay. *)
Theorem decay_stats_only_lowers (p : pet) :
  let p' := execState decay_stats p in
  (name p' = name p /\ health p' = health p /\ turn p' = turn p /\
   alive p' = alive p /\ sleeping p' = sleeping p /\
   sleep_turns_remaining p' = sleep_turns_remaining p) /\
  (stats_in_range p ->
   hunger p' = Z.max 0 (hunger p - 5) /\
   energy p' = Z.max 0 (energy p - 4) /\
   happiness p' = Z.max 0 (happiness p - 2)).
Proof.
  cbv zeta. rewrite decay_stats_exec.
  cbn [name hunger happiness energy health turn alive sleeping
       sleep_turns_remaining].
  split; [repeat split|].
  unfold stats_in_range, in_range, clamp. lia.
Qed.

Lemma decay_stats_only_lowers_witness :
  let p := Pet "Pip" 3 1 50 100 1 true false 0 in
  let p' := execState decay_stats p in
  stats_in_range p /\ hunger p' = 0 /\ energy p' = 46 /\ happiness p' = 0.
Proof.
  intros p p'.
  assert (Hr : stats_in_range p).
  { unfold stats_in_range, in_range. simpl. lia. }
  split; [exact Hr|].
  exact (proj2 (decay_stats_only_lowers p) Hr).
Defined.
